(** * chat_with_tools.py: the streaming interpreter and its non-streaming twin

    A shallow embedding of [src/chat_with_tools.py], the console client of the
    [/v1/responses] endpoint.  The Python functions are translated one by
    one, under their own names:

    - [stream_response]              (lines 28-72), the event decoder;
    - [non_stream_response]          (lines 75-91);
    - [print_streaming_response]     (lines 94-152), the phase interpreter;
    - [print_non_streaming_response] (lines 155-193), the adapter;
    - [main_request]                 (lines 265-278 of [main]), the part of
      the REPL body that sends a turn and stores the identifier.

    Python values are the JSON-shaped values [json.loads] produces; a [dict]
    is a finite map from strings.  What the program prints is recorded as a
    trace of render actions, one constructor per [print] statement; an
    exception is a result of its own, so that what was printed before it is
    kept.  The library calls the program makes ([requests.post],
    [bytes.decode], [json.loads], [str]) are the fields of the class
    [Runtime].

    The service that answers is not part of the file.  Where a property
    compares the two ways a turn is delivered, the turn is a list of items
    and [turn_events] and [turn_response] are its two forms. *)

From Stdlib Require Import ZArith Ascii Floats Lia.
From stdpp Require Import base option gmap strings list fin_maps.

Set Default Proof Using "Type".
#[local] Set Warnings "-register-all,-clear-no-such-hyp".

(** ** Python values *)

(** A Python [str] is a [string], one [ascii] per character; [bytes] is a
    list of bytes.  An [int] is unbounded, a [float] is a binary64. *)
Inductive pyval : Type :=
| PNone
| PBool (b : bool)
| PInt (z : Z)
| PFloat (f : float)
| PStr (s : string)
| PList (l : list pyval)
| PDict (d : gmap string pyval).

Abbreviation bytes := (list Byte.byte).

(** The exceptions the program can meet.  [main] catches [Exception], of
    which all of them are subclasses. *)
Inductive exn : Type :=
| AttributeError
| TypeError
| KeyError
| IndexError
| UnicodeDecodeError
| RequestException.

Abbreviation result A := (exn + A)%type.

(** [if v:] *)
Definition py_truthy (v : pyval) : bool :=
  match v with
  | PNone => false
  | PBool b => b
  | PInt z => negb (z =? 0)%Z
  | PFloat f => negb (PrimFloat.eqb f 0%float)
  | PStr s => negb (String.eqb s "")
  | PList l => negb (bool_decide (l = []))
  | PDict d => negb (bool_decide (d = ∅))
  end.

(** [v == 'literal'] *)
Definition py_eq_str (v : pyval) (lit : string) : bool :=
  match v with
  | PStr s => String.eqb s lit
  | _ => false
  end.

(** [v.get(key, dflt)]: only a [dict] has the method. *)
Definition py_get (v : pyval) (key : string) (dflt : pyval) : result pyval :=
  match v with
  | PDict d => inr (default dflt (d !! key))
  | _ => inl AttributeError
  end.

(** [text[:n]] and [line[n:]] on a [str]. *)
Fixpoint str_take (n : nat) (s : string) : string :=
  match n, s with
  | S n', String c s' => String c (str_take n' s')
  | _, _ => ""
  end.

Fixpoint str_drop (n : nat) (s : string) : string :=
  match n, s with
  | S n', String _ s' => str_drop n' s'
  | _, _ => s
  end.

(** [v[:n]]: a [str] and a [list] can be sliced, nothing else that JSON
    gives can. *)
Definition py_slice_to (n : nat) (v : pyval) : result pyval :=
  match v with
  | PStr s => inr (PStr (str_take n s))
  | PList l => inr (PList (take n l))
  | _ => inl TypeError
  end.

(** [len(v)] *)
Definition py_len (v : pyval) : result nat :=
  match v with
  | PStr s => inr (String.length s)
  | PList l => inr (length l)
  | PDict d => inr (size d)
  | _ => inl TypeError
  end.

(** [v[0]].  The keys of a JSON object are strings, so [0] is never one. *)
Definition py_index0 (v : pyval) : result pyval :=
  match v with
  | PList (x :: _) => inr x
  | PStr (String c _) => inr (PStr (String c ""))
  | PList [] | PStr "" => inl IndexError
  | PDict _ => inl KeyError
  | _ => inl TypeError
  end.

(** [for x in v]: the elements of a [list], the keys of a [dict], the
    characters of a [str].  The keys come in the order of the map; the
    program calls [get] on what it iterates over, which a key does not
    have, so that the order is never observed. *)
Definition py_iter (v : pyval) : result (list pyval) :=
  match v with
  | PList l => inr l
  | PDict d => inr (PStr <$> (map_to_list d).*1)
  | PStr s => inr ((λ c, PStr (String c "")) <$> String.list_ascii_of_string s)
  | _ => inl TypeError
  end.

(** [v > 0] *)
Definition py_gt0 (v : pyval) : result bool :=
  match v with
  | PInt z => inr (0 <? z)%Z
  | PBool b => inr b
  | PFloat f => inr (PrimFloat.ltb 0%float f)
  | _ => inl TypeError
  end.

(** ** The library calls *)

(** What [requests.post] gives back: [iter_lines] yields the lines of the
    body and may then fail (a connection lost in the middle of the stream);
    [json] is the decoded body, or the failure to decode it. *)
Record Response : Type := {
  iter_lines : list bytes * option exn;
  json : result pyval
}.

(** [py_str] is [str(v)], which is also what [print] and an f-string
    apply to a value. *)
Class Runtime : Type := {
  requests_post : gmap string pyval → result Response;
  bytes_decode : bytes → option string;
  json_loads : string → option pyval;
  py_str : pyval → string;
  py_str_PStr : ∀ s, py_str (PStr s) = s
}.

(** ** Render actions and the output monad *)

(** The values of [current_phase], [None] apart. *)
Inductive Phase : Type := reasoning | code | executing | function | text.

#[global] Instance Phase_eq_dec : EqDecision Phase.
Proof. solve_decision. Defined.

(** One constructor per [print] statement.  A phase header is
    [beginPhase], text written after it is [appendText]. *)
Inductive RenderAction : Type :=
| openStream                      (* line 99 *)
| beginPhase (p : Phase)          (* lines 112, 119, 124, 134, 141; 166, 171, 183 *)
| appendText (t : string)         (* lines 113, 120, 135, 142; 166, 171, 183 *)
| execDone                        (* line 128 *)
| toolAnnounce (name : string)    (* lines 149, 176 *)
| closeStream                     (* line 151 *)
| codeOutputs (t : string)        (* line 173 *)
| toolArguments (t : string)      (* line 177 *)
| toolInstruction                 (* line 178 *)
| usageNote (t : string)          (* line 190 *)
| blankLine                       (* line 192 *)
| assistantPrompt                 (* line 268 *)
| errorMessage (e : exn).         (* line 277 *)

(** A computation prints, then returns or raises. *)
Definition M (A : Type) : Type := (list RenderAction * result A)%type.

#[global] Instance M_ret : MRet M := λ A x, ([], inr x).
#[global] Instance M_bind : MBind M := λ A B f m,
  match m.2 with
  | inl e => (m.1, inl e)
  | inr x => (m.1 ++ (f x).1, (f x).2)
  end.

Definition print (a : RenderAction) : M unit := ([a], inr ()).
Definition lift {A} (r : result A) : M A := ([], r).

(** ** The program *)

Definition MODEL : string := "openai/gpt-oss-20b".

(** A generator that has run to its end: the events it yielded, then the
    value it returned or the exception it raised. *)
Record Generator : Type := {
  yielded : list pyval;
  finish : result pyval
}.

Definition gen_raise (e : exn) : Generator :=
  {| yielded := []; finish := inl e |}.

Definition gen_yield (event : pyval) (g : Generator) : Generator :=
  {| yielded := event :: yielded g; finish := finish g |}.

(** [return {"id": response_id, "text": full_text}], line 72;
    [full_text] is never assigned after line 47. *)
Definition gen_return (response_id : pyval) : Generator :=
  {| yielded := [];
     finish := inr (PDict (<["id" := response_id]> {["text" := PStr ""]})) |}.

(** [event.get('response', {}).get('id')], lines 68 and 106. *)
Definition created_id (event : pyval) : result pyval :=
  match py_get event "response" (PDict ∅) with
  | inl e => inl e
  | inr r => py_get r "id" PNone
  end.

(** What [main] keeps from one turn to the next (lines 233-234). *)
Record repl_state : Type := {
  previous_id : pyval;
  use_tools : bool
}.

(** The two local variables of [print_streaming_response]. *)
Record interp_state : Type := {
  response_id : pyval;
  current_phase : option Phase
}.

(** ** Kinds of events *)

(** The discriminator of an event, as the interpreter reads it:
    [event.get('type', '') == type]. *)
Definition event_type_is (type : string) (event : pyval) : bool :=
  match py_get event "type" (PStr "") with
  | inr event_type => py_eq_str event_type type
  | inl _ => false
  end.

(** The four kinds of delta, each with the phase it belongs to. *)
Definition delta_kinds : list (string * Phase) :=
  [ ("response.reasoning_text.delta", reasoning);
    ("response.code_interpreter_call_code.delta", code);
    ("response.function_call_arguments.delta", function);
    ("response.output_text.delta", text) ].

(** An event of one of these kinds. *)
Definition is_delta (event : pyval) : Prop :=
  ∃ type p, (type, p) ∈ delta_kinds ∧ event_type_is type event = true.

(** [event.get('delta', '')] of an event that is a [dict]. *)
Definition delta_of (event : pyval) : pyval :=
  match py_get event "delta" (PStr "") with
  | inr delta => delta
  | inl _ => PStr ""
  end.

(** The identifier captured over a run of events, from [rid]: each
    [response.created] event replaces it. *)
Definition last_identifier (events : list pyval) (rid : pyval) : pyval :=
  foldl
    (λ rid event,
       if event_type_is "response.created" event
       then match created_id event with
            | inr rid' => rid'
            | inl _ => rid
            end
       else rid)
    rid events.

Section Program.
Context `{Runtime}.

(** Lines 30-37. *)
Definition stream_response_payload
    (input_text : string) (tools : list pyval) (previous_id : pyval)
    : gmap string pyval :=
  let payload : gmap string pyval :=
    <["model" := PStr MODEL]> (<["input" := PStr input_text]>
      (<["tools" := PList tools]> {["stream" := PBool true]})) in
  if py_truthy previous_id
  then <["previous_response_id" := previous_id]> payload
  else payload.

(** Lines 77-84. *)
Definition non_stream_response_payload
    (input_text : string) (tools : list pyval) (previous_id : pyval)
    : gmap string pyval :=
  let payload : gmap string pyval :=
    <["model" := PStr MODEL]> (<["input" := PStr input_text]>
      (<["tools" := PList tools]> {["stream" := PBool false]})) in
  if py_truthy previous_id
  then <["previous_response_id" := previous_id]> payload
  else payload.

(** The loop of lines 49-70 over the lines still to come; [closing] is
    the failure of the transport after the last line, if any. *)
Fixpoint stream_lines (lines : list bytes) (closing : option exn)
    (response_id : pyval) : Generator :=
  match lines with
  | [] =>
      match closing with
      | Some e => gen_raise e
      | None => gen_return response_id
      end
  | line :: rest =>
      if bool_decide (line = []) then stream_lines rest closing response_id
      else
        match bytes_decode line with
        | None => gen_raise UnicodeDecodeError
        | Some line =>
            if negb (String.prefix "data: " line)
            then stream_lines rest closing response_id
            else
              let data := str_drop 6 line in
              if String.eqb data "[DONE]" then gen_return response_id
              else
                match json_loads data with
                | None => stream_lines rest closing response_id
                | Some event =>
                    match py_get event "type" (PStr "") with
                    | inl e => gen_raise e
                    | inr event_type =>
                        if py_eq_str event_type "response.created" then
                          match created_id event with
                          | inl e => gen_raise e
                          | inr rid =>
                              gen_yield event (stream_lines rest closing rid)
                          end
                        else
                          gen_yield event
                            (stream_lines rest closing response_id)
                    end
                end
        end
  end.

(** Lines 28-72. *)
Definition stream_response
    (input_text : string) (tools : list pyval) (previous_id : pyval)
    : Generator :=
  match requests_post
          (stream_response_payload input_text tools previous_id) with
  | inl e => gen_raise e
  | inr resp => stream_lines (iter_lines resp).1 (iter_lines resp).2 PNone
  end.

(** Lines 75-91. *)
Definition non_stream_response
    (input_text : string) (tools : list pyval) (previous_id : pyval)
    : result pyval :=
  match requests_post
          (non_stream_response_payload input_text tools previous_id) with
  | inl e => inl e
  | inr resp => json resp
  end.

(** The body shared by the four delta branches (lines 110-113, 117-120,
    132-135, 139-142): the header when the phase changes, then the
    delta. *)
Definition delta_branch (p : Phase) (st : interp_state) (event : pyval)
    : M interp_state :=
  (if bool_decide (current_phase st = Some p) then mret ()
   else print (beginPhase p));;
  delta ← lift (py_get event "delta" (PStr ""));
  print (appendText (py_str delta));;
  mret {| response_id := response_id st; current_phase := Some p |}.

(** One turn of the loop of lines 101-149. *)
Definition interpret_event (st : interp_state) (event : pyval)
    : M interp_state :=
  event_type ← lift (py_get event "type" (PStr ""));
  if py_eq_str event_type "response.created" then
    rid ← lift (created_id event);
    mret {| response_id := rid; current_phase := current_phase st |}
  else if py_eq_str event_type "response.reasoning_text.delta" then
    delta_branch reasoning st event
  else if py_eq_str event_type "response.code_interpreter_call_code.delta" then
    delta_branch code st event
  else if py_eq_str event_type "response.code_interpreter_call.interpreting" then
    print (beginPhase executing);;
    mret {| response_id := response_id st; current_phase := Some executing |}
  else if py_eq_str event_type "response.code_interpreter_call.completed" then
    print execDone;;
    mret st
  else if py_eq_str event_type "response.function_call_arguments.delta" then
    delta_branch function st event
  else if py_eq_str event_type "response.output_text.delta" then
    delta_branch text st event
  else if py_eq_str event_type "response.output_item.added" then
    item ← lift (py_get event "item" (PDict ∅));
    item_type ← lift (py_get item "type" PNone);
    (if py_eq_str item_type "function_call" then
       name ← lift (py_get item "name" PNone);
       print (toolAnnounce (py_str name))
     else mret ());;
    mret st
  else mret st.

Fixpoint interpret_events (events : list pyval) (st : interp_state)
    : M interp_state :=
  match events with
  | [] => mret st
  | event :: rest =>
      st' ← interpret_event st event;
      interpret_events rest st'
  end.

(** Lines 94-152.  The generator is advanced one event at a time, so
    what it raises arrives after the events it yielded were printed. *)
Definition print_streaming_response
    (input_text : string) (tools : list pyval) (previous_id : pyval)
    : M pyval :=
  print openStream;;
  let g := stream_response input_text tools previous_id in
  st ← interpret_events (yielded g)
         {| response_id := PNone; current_phase := None |};
  _ ← lift (finish g);
  print closeStream;;
  mret (response_id st).

(** [for x in xs: body(x)] *)
Fixpoint for_each {A} (body : A → M unit) (xs : list A) : M unit :=
  match xs with
  | [] => mret ()
  | x :: rest => body x;; for_each body rest
  end.

(** Lines 182-183, the body of the loop over the content of a
    [message]. *)
Definition print_message_block (c : pyval) : M unit :=
  c_type ← lift (py_get c "type" PNone);
  if py_eq_str c_type "output_text" then
    c_text ← lift (py_get c "text" (PStr ""));
    print (beginPhase text);;
    print (appendText (py_str c_text))
  else mret ().

(** Lines 160-183, the body of the loop over the output items. *)
Definition print_item (item : pyval) : M unit :=
  item_type ← lift (py_get item "type" PNone);
  if py_eq_str item_type "reasoning" then
    content ← lift (py_get item "content" (PList []));
    if py_truthy content then
      first ← lift (py_index0 content);
      txt ← lift (py_get first "text" (PStr ""));
      shown ← lift (py_slice_to 200 txt);
      n ← lift (py_len txt);
      print (beginPhase reasoning);;
      print (appendText (py_str shown +:+ (if 200 <? n then "..." else "")))
    else mret ()
  else if py_eq_str item_type "code_interpreter_call" then
    code_text ← lift (py_get item "code" (PStr ""));
    outputs ← lift (py_get item "outputs" (PList []));
    print (beginPhase code);;
    print (appendText (py_str code_text));;
    if py_truthy outputs then print (codeOutputs (py_str outputs))
    else mret ()
  else if py_eq_str item_type "function_call" then
    name ← lift (py_get item "name" PNone);
    print (toolAnnounce (py_str name));;
    arguments ← lift (py_get item "arguments" PNone);
    print (toolArguments (py_str arguments));;
    print toolInstruction
  else if py_eq_str item_type "message" then
    content ← lift (py_get item "content" (PList []));
    blocks ← lift (py_iter content);
    for_each print_message_block blocks
  else mret ().

(** Lines 155-193. *)
Definition print_non_streaming_response (response : pyval) : M pyval :=
  response_id ← lift (py_get response "id" PNone);
  output ← lift (py_get response "output" (PList []));
  items ← lift (py_iter output);
  for_each print_item items;;
  usage ← lift (py_get response "usage" (PDict ∅));
  details ← lift (py_get usage "output_tokens_details" (PDict ∅));
  tool_tokens ← lift (py_get details "tool_output_tokens" (PInt 0));
  noted ← lift (py_gt0 tool_tokens);
  (if noted : bool then print (usageNote (py_str tool_tokens))
   else mret ());;
  print blankLine;;
  mret response_id.

(** Lines 265-278 of [main]: the turn is sent, and its identifier stored
    unless an exception was caught. *)
Definition main_request (no_stream : bool) (tools : list pyval)
    (st : repl_state) (user_input : string)
    : list RenderAction * repl_state :=
  let active_tools := if use_tools st then tools else [] in
  let turn : M pyval :=
    print assistantPrompt;;
    if no_stream then
      response ← lift (non_stream_response user_input active_tools
                         (previous_id st));
      print_non_streaming_response response
    else
      print_streaming_response user_input active_tools (previous_id st) in
  match turn.2 with
  | inr new_id =>
      (turn.1, {| previous_id := new_id; use_tools := use_tools st |})
  | inl e => (turn.1 ++ [errorMessage e], st)
  end.

(** A line of the body that is a data frame with the given payload: it
    is not empty and decodes to ["data: "] followed by the payload. *)
Definition data_frame (line : bytes) (payload : string) : Prop :=
  line ≠ [] ∧ bytes_decode line = Some ("data: " +:+ payload).

(** A frame that carries a delta event; a frame whose payload is
    malformed; the frame that ends the stream. *)
Definition delta_frame (line : bytes) (event : pyval) : Prop :=
  ∃ payload type p,
    data_frame line payload ∧ payload ≠ "[DONE]"
    ∧ json_loads payload = Some event
    ∧ (type, p) ∈ delta_kinds ∧ event_type_is type event = true.

Definition malformed_frame (line : bytes) : Prop :=
  ∃ payload,
    data_frame line payload ∧ payload ≠ "[DONE]" ∧ json_loads payload = None.

Definition done_frame (line : bytes) : Prop := data_frame line "[DONE]".
End Program.

(** ** What a trace shows *)

(** The phases entered, in order. *)
Definition phases_entered (trace : list RenderAction) : list Phase :=
  omap (λ a, match a with beginPhase p => Some p | _ => None end) trace.

(** The texts appended, in order. *)
Definition appended (trace : list RenderAction) : list string :=
  omap (λ a, match a with appendText t => Some t | _ => None end) trace.

(** The text appended while the phase last entered is [p]. *)
Fixpoint phase_text (p : Phase) (cur : option Phase)
    (trace : list RenderAction) : string :=
  match trace with
  | [] => ""
  | beginPhase q :: rest => phase_text p (Some q) rest
  | appendText t :: rest =>
      if bool_decide (cur = Some p) then t +:+ phase_text p cur rest
      else phase_text p cur rest
  | _ :: rest => phase_text p cur rest
  end.

(** The phases the adapter has a header for. *)
Definition adapter_phase (q : Phase) : Prop :=
  q = reasoning ∨ q = code ∨ q = text.

(** The final answering text of a turn. *)
Definition answer_text (trace : list RenderAction) : string :=
  phase_text text None trace.

(** ** A logical turn and its two forms *)

(** Events and items are written out as the values [json.loads] gives
    for them. *)
Definition delta_event (type delta : string) : pyval :=
  PDict (<["type" := PStr type]> {["delta" := PStr delta]}).

Definition created_event (id : string) : pyval :=
  PDict (<["type" := PStr "response.created"]>
           {["response" := PDict {["id" := PStr id]}]}).

Definition plain_event (type : string) : pyval :=
  PDict {["type" := PStr type]}.

Definition item_added_event (item : pyval) : pyval :=
  PDict (<["type" := PStr "response.output_item.added"]> {["item" := item]}).


Definition str_concat (parts : list string) : string :=
  foldr String.append "" parts.

(** Modelled from the spec: the service that answers a request is not
    under [src/].  A logical turn is the list of items the service
    produced, each with the deltas its text was streamed in; sections 4.2,
    4.3 and 6 of the spec give the events of the streamed form
    ([turn_events]) and the items of the finished form
    ([turn_response]). *)
Inductive TurnItem : Type :=
| ReasoningItem (deltas : list string)
| CodeItem (deltas : list string)
| FunctionCallItem (name : string) (deltas : list string)
| MessageItem (deltas : list string).

Definition item_events (it : TurnItem) : list pyval :=
  match it with
  | ReasoningItem deltas =>
      delta_event "response.reasoning_text.delta" <$> deltas
  | CodeItem deltas =>
      (delta_event "response.code_interpreter_call_code.delta" <$> deltas)
      ++ [plain_event "response.code_interpreter_call.interpreting";
          plain_event "response.code_interpreter_call.completed"]
  | FunctionCallItem name deltas =>
      item_added_event
        (PDict (<["type" := PStr "function_call"]> {["name" := PStr name]}))
      :: (delta_event "response.function_call_arguments.delta" <$> deltas)
  | MessageItem deltas =>
      delta_event "response.output_text.delta" <$> deltas
  end.

Definition turn_events (id : string) (turn : list TurnItem) : list pyval :=
  created_event id :: (turn ≫= item_events).

Definition item_object (it : TurnItem) : pyval :=
  match it with
  | ReasoningItem deltas =>
      PDict (<["type" := PStr "reasoning"]>
        {["content" :=
            PList [PDict (<["type" := PStr "reasoning_text"]>
                            {["text" := PStr (str_concat deltas)]})]]})
  | CodeItem deltas =>
      PDict (<["type" := PStr "code_interpreter_call"]>
        {["code" := PStr (str_concat deltas)]})
  | FunctionCallItem name deltas =>
      PDict (<["type" := PStr "function_call"]> (<["name" := PStr name]>
        {["arguments" := PStr (str_concat deltas)]}))
  | MessageItem deltas =>
      PDict (<["type" := PStr "message"]>
        {["content" :=
            PList [PDict (<["type" := PStr "output_text"]>
                            {["text" := PStr (str_concat deltas)]})]]})
  end.

Definition turn_response (id : string) (turn : list TurnItem) : pyval :=
  PDict (<["id" := PStr id]> {["output" := PList (item_object <$> turn)]}).

(** The text of an item was streamed in at least one delta; the
    arguments of a function call may have none. *)
Definition has_delta (it : TurnItem) : Prop :=
  match it with
  | ReasoningItem deltas | CodeItem deltas | MessageItem deltas => deltas ≠ []
  | FunctionCallItem _ _ => True
  end.

(** What each form of an item is expected to show: the phases a run of
    deltas enters, and the answering text. *)
Definition run_phases (p : Phase) (deltas : list string) : list Phase :=
  if bool_decide (deltas = []) then [] else [p].

Definition item_phases_stream (it : TurnItem) : list Phase :=
  match it with
  | ReasoningItem deltas => run_phases reasoning deltas
  | CodeItem deltas => run_phases code deltas ++ [executing]
  | FunctionCallItem _ deltas => run_phases function deltas
  | MessageItem deltas => run_phases text deltas
  end.

Definition item_phases_adapter (it : TurnItem) : list Phase :=
  match it with
  | ReasoningItem _ => [reasoning]
  | CodeItem _ => [code]
  | FunctionCallItem _ _ => []
  | MessageItem _ => [text]
  end.

Definition item_answer (it : TurnItem) : string :=
  match it with
  | MessageItem deltas => str_concat deltas
  | _ => ""
  end.

Definition turn_answer (turn : list TurnItem) : string :=
  str_concat (item_answer <$> turn).

(** The phase a trace ends in, when it starts in [cur]. *)
Fixpoint trace_phase (cur : option Phase) (trace : list RenderAction)
    : option Phase :=
  match trace with
  | [] => cur
  | beginPhase p :: rest => trace_phase (Some p) rest
  | _ :: rest => trace_phase cur rest
  end.

(** The trace of a run of deltas of phase [p] met in phase [cur], and the
    phase after it. *)
Definition run_trace (cur : option Phase) (p : Phase) (deltas : list string)
    : list RenderAction :=
  if bool_decide (deltas = []) then []
  else (if bool_decide (cur = Some p) then [] else [beginPhase p])
       ++ (appendText <$> deltas).

Definition run_phase (cur : option Phase) (p : Phase) (deltas : list string)
    : option Phase :=
  if bool_decide (deltas = []) then cur else Some p.

(** The preview of line 166. *)
Definition preview (t : string) : string :=
  str_take 200 t +:+ (if 200 <? String.length t then "..." else "").

Definition item_adapter_trace (it : TurnItem) : list RenderAction :=
  match it with
  | ReasoningItem deltas =>
      [beginPhase reasoning; appendText (preview (str_concat deltas))]
  | CodeItem deltas => [beginPhase code; appendText (str_concat deltas)]
  | FunctionCallItem name deltas =>
      [toolAnnounce name; toolArguments (str_concat deltas); toolInstruction]
  | MessageItem deltas => [beginPhase text; appendText (str_concat deltas)]
  end.

(** ** A runtime for the examples *)

(** The events of the examples. *)
Definition think_event : pyval :=
  delta_event "response.reasoning_text.delta" "hmm".

Definition code_event : pyval :=
  delta_event "response.code_interpreter_call_code.delta" "1+1".

Definition completed_event : pyval :=
  plain_event "response.code_interpreter_call.completed".

Definition tool_event : pyval :=
  item_added_event
    (PDict (<["type" := PStr "function_call"]>
              {["name" := PStr "get_weather"]})).

Definition arguments_event : pyval :=
  delta_event "response.function_call_arguments.delta" "{}".

(** The frames the examples send, by payload. *)
Definition sample_frames : list (string * pyval) :=
  [ ("created A", created_event "resp_A");
    ("created B", created_event "resp_B");
    ("think", think_event);
    ("code", code_event);
    ("run", plain_event "response.code_interpreter_call.interpreting");
    ("ran", completed_event);
    ("tool", tool_event);
    ("args", arguments_event);
    ("hello", delta_event "response.output_text.delta" "Hello");
    ("world", delta_event "response.output_text.delta" " world") ].

Fixpoint assoc (table : list (string * pyval)) (key : string) : option pyval :=
  match table with
  | [] => None
  | (k, v) :: rest => if String.eqb k key then Some v else assoc rest key
  end.

(** [str] on the values the examples print: [None], booleans and
    strings as Python prints them, everything else as a placeholder. *)
Definition sample_str (v : pyval) : string :=
  match v with
  | PNone => "None"
  | PBool true => "True"
  | PBool false => "False"
  | PStr s => s
  | _ => "<value>"
  end.

(** Every request is answered by [reply] and the lines are ASCII.  The
    payloads are named, not written out in JSON: one that [sample_frames]
    has decodes to the event beside it, any other is malformed. *)
Definition sample_runtime (reply : Response) : Runtime := {|
  requests_post := λ _, inr reply;
  bytes_decode := λ line, Some (String.string_of_list_byte line);
  json_loads := assoc sample_frames;
  py_str := sample_str;
  py_str_PStr := λ s, eq_refl
|}.

Definition frame (payload : string) : bytes :=
  String.list_byte_of_string ("data: " +:+ payload).

Definition streamed (lines : list bytes) : Response :=
  {| iter_lines := (lines, None); json := inl RequestException |}.

(** The inputs of the examples. *)
Definition idle_runtime : Runtime := sample_runtime (streamed []).

Definition two_ids_runtime : Runtime :=
  sample_runtime
    (streamed [frame "created A"; frame "created B"; frame "[DONE]"]).

Definition no_id_runtime : Runtime :=
  sample_runtime
    (streamed [frame "hello"; frame "{oops"; frame "world"; frame "[DONE]"]).

(** A turn that thinks, runs code, calls a tool and answers, as a stream
    and as a list of items. *)
Definition full_runtime : Runtime :=
  sample_runtime
    (streamed [frame "created A"; frame "think"; frame "code"; frame "run";
               frame "ran"; frame "tool"; frame "args"; frame "hello";
               frame "world"; frame "[DONE]"]).

Definition full_turn : list TurnItem :=
  [ReasoningItem ["hmm"]; CodeItem ["1+1"];
   FunctionCallItem "get_weather" ["{}"]; MessageItem ["Hello"; " world"]].

Definition session_A : repl_state :=
  {| previous_id := PStr "resp_A"; use_tools := true |}.

Definition reasoning_item (content : list pyval) : pyval :=
  PDict (<["type" := PStr "reasoning"]> {["content" := PList content]}).

Definition text_block (t : string) : pyval := PDict {["text" := PStr t]}.

Definition text_of_length (n : nat) : string :=
  String.string_of_list_ascii (replicate n "a"%char).

(** ** Properties *)

(** *** The output monad *)

Lemma bind_unfold {A B} (f : A → M B) (m : M A) :
  m ≫= f =
  match m.2 with
  | inl e => (m.1, inl e)
  | inr x => (m.1 ++ (f x).1, (f x).2)
  end.
Proof. reflexivity. Qed.

Lemma bind_returns {A B} (f : A → M B) (m : M A) y :
  (m ≫= f).2 = inr y →
  ∃ x, m.2 = inr x ∧ (f x).2 = inr y ∧ (m ≫= f).1 = m.1 ++ (f x).1.
Proof.
  rewrite bind_unfold. destruct m as [out [e|x]]; simpl; [done|eauto].
Qed.

Lemma bind_eq_returns {A B} (f : A → M B) (m : M A) out y :
  m ≫= f = (out, inr y) →
  ∃ x out1 out2,
    m = (out1, inr x) ∧ f x = (out2, inr y) ∧ out = out1 ++ out2.
Proof.
  rewrite bind_unfold. destruct m as [out1 [e|x]]; cbn [fst snd]; [done|].
  destruct (f x) as [out2 r] eqn:Hf. cbn [fst snd]. intros [= <- ->].
  by exists x, out1, out2.
Qed.

Lemma lift_bind {A B} (f : A → M B) (r : result A) :
  lift r ≫= f = match r with inl e => ([], inl e) | inr x => f x end.
Proof. destruct r as [e|x]; [done|]. rewrite bind_unfold. simpl. by destruct (f x). Qed.

Lemma print_bind {B} (f : unit → M B) a :
  print a ≫= f = (a :: (f ()).1, (f ()).2).
Proof. done. Qed.

Lemma ret_bind {A B} (f : A → M B) x : mret x ≫= f = f x.
Proof. rewrite bind_unfold. simpl. by destruct (f x). Qed.

Lemma nil_bind {A B} (f : A → M B) x : ([], inr x) ≫= f = f x.
Proof. apply ret_bind. Qed.

(** *** Events and strings *)

Lemma event_type_is_inv type event :
  event_type_is type event = true →
  ∃ d, event = PDict d ∧ default (PStr "") (d !! "type") = PStr type.
Proof.
  unfold event_type_is. destruct event as [| | | | |l|d]; try done.
  cbn [py_get]. intros Hty. exists d. split; [done|].
  destruct (default (PStr "") (d !! "type")); try done.
  by apply String.eqb_eq in Hty as ->.
Qed.

Lemma str_append_empty s : s +:+ "" = s.
Proof.
  induction s as [|c s IH]; [done|].
  change (String c (s +:+ "") = String c s). by rewrite IH.
Qed.

Lemma str_take_all n s : String.length s ≤ n → str_take n s = s.
Proof.
  revert n. induction s as [|c s IH]; intros [|n] Hlen; simpl in *;
    try done; [lia|]. f_equal. apply IH. lia.
Qed.

Lemma str_take_length n s :
  String.length (str_take n s) = n `min` String.length s.
Proof.
  revert n. induction s as [|c s IH]; intros [|n]; simpl; try done.
  by rewrite IH.
Qed.

Lemma delta_phase_not_executing type p :
  (type, p) ∈ delta_kinds → p ≠ executing.
Proof.
  unfold delta_kinds. set_unfold. intros Hkind ->.
  destruct_or!; destruct_and?; done.
Qed.

(** *** Traces *)

Lemma str_append_assoc s1 s2 s3 : (s1 +:+ s2) +:+ s3 = s1 +:+ s2 +:+ s3.
Proof.
  induction s1 as [|c s1 IH]; [done|].
  change (String c ((s1 +:+ s2) +:+ s3) = String c (s1 +:+ s2 +:+ s3)).
  by rewrite IH.
Qed.

Lemma phases_entered_app t1 t2 :
  phases_entered (t1 ++ t2) = phases_entered t1 ++ phases_entered t2.
Proof. apply omap_app. Qed.

Lemma trace_phase_app cur t1 t2 :
  trace_phase cur (t1 ++ t2) = trace_phase (trace_phase cur t1) t2.
Proof.
  revert cur. induction t1 as [|a t1 IH]; intros cur; [done|].
  destruct a; apply IH.
Qed.

Lemma phase_text_app p cur t1 t2 :
  phase_text p cur (t1 ++ t2) =
  phase_text p cur t1 +:+ phase_text p (trace_phase cur t1) t2.
Proof.
  revert cur. induction t1 as [|a t1 IH]; intros cur; [done|].
  destruct a; cbn [app phase_text trace_phase]; try apply IH.
  case_bool_decide; [|apply IH]. by rewrite IH, str_append_assoc.
Qed.

Lemma trace_phase_entered cur trace p :
  trace_phase cur trace = Some p → cur = Some p ∨ p ∈ phases_entered trace.
Proof.
  revert cur. induction trace as [|a trace IH]; intros cur; [by left|].
  destruct a; cbn [trace_phase]; intros Hp; apply IH in Hp;
    try (destruct Hp; [by left|by right]).
  unfold phases_entered. cbn [omap list_omap]. set_solver.
Qed.

Lemma phase_text_appends p cur deltas :
  phase_text p cur (appendText <$> deltas) =
  if bool_decide (cur = Some p) then str_concat deltas else "".
Proof.
  induction deltas as [|d deltas IH]; cbn [fmap list_fmap phase_text].
  { by case_bool_decide. }
  rewrite IH. by case_bool_decide.
Qed.

Lemma trace_phase_appends cur deltas :
  trace_phase cur (appendText <$> deltas) = cur.
Proof. induction deltas as [|d deltas IH]; [done|apply IH]. Qed.

Lemma phases_entered_appends deltas :
  phases_entered (appendText <$> deltas) = [].
Proof. induction deltas as [|d deltas IH]; [done|apply IH]. Qed.

Lemma run_trace_phase cur p deltas :
  trace_phase cur (run_trace cur p deltas) = run_phase cur p deltas.
Proof.
  unfold run_trace, run_phase. case_bool_decide; [done|].
  rewrite trace_phase_app, trace_phase_appends. by case_bool_decide.
Qed.

Lemma run_trace_text q cur p deltas :
  phase_text q cur (run_trace cur p deltas) =
  if bool_decide (p = q) then str_concat deltas else "".
Proof.
  unfold run_trace. case_bool_decide as Hnil.
  { subst. by case_bool_decide. }
  rewrite phase_text_app, phase_text_appends.
  case_bool_decide as Hcur; cbn [phase_text trace_phase].
  - subst cur. repeat case_bool_decide; naive_solver.
  - repeat case_bool_decide; naive_solver.
Qed.

Lemma run_trace_entered q cur p deltas :
  cur = Some q ∨ q ∈ phases_entered (run_trace cur p deltas)
  ↔ cur = Some q ∨ q ∈ run_phases p deltas.
Proof.
  unfold run_trace, run_phases. case_bool_decide; [done|].
  rewrite phases_entered_app, phases_entered_appends, app_nil_r.
  case_bool_decide; cbn; set_solver.
Qed.

Lemma event_type_is_delta_event type d :
  event_type_is type (delta_event type d) = true.
Proof.
  unfold event_type_is, delta_event. cbn [py_get].
  rewrite lookup_insert_eq. apply String.eqb_refl.
Qed.

Lemma delta_of_delta_event type d : delta_of (delta_event type d) = PStr d.
Proof.
  unfold delta_of, delta_event. cbn [py_get].
  by rewrite lookup_insert_ne, lookup_singleton_eq.
Qed.

Lemma event_type_is_plain_event type :
  event_type_is type (plain_event type) = true.
Proof.
  unfold event_type_is, plain_event. cbn [py_get].
  rewrite lookup_singleton_eq. apply String.eqb_refl.
Qed.

Lemma adapter_trace_text cur turn :
  phase_text text cur (turn ≫= item_adapter_trace) = turn_answer turn.
Proof.
  revert cur. induction turn as [|it turn IH]; intros cur; [done|].
  rewrite bind_cons. unfold turn_answer. cbn [fmap list_fmap str_concat foldr].
  destruct it; cbn [item_adapter_trace app phase_text item_answer];
    try apply IH.
  rewrite bool_decide_true by done. f_equal. apply IH.
Qed.

Lemma adapter_trace_phases turn :
  phases_entered (turn ≫= item_adapter_trace) = turn ≫= item_phases_adapter.
Proof.
  induction turn as [|it turn IH]; [done|].
  rewrite !bind_cons, phases_entered_app, IH. by destruct it.
Qed.

Lemma item_phases_compared it q :
  has_delta it →
  q ∈ item_phases_adapter it
  ↔ q ∈ item_phases_stream it ∧ q ≠ executing ∧ q ≠ function.
Proof.
  unfold has_delta, item_phases_stream, item_phases_adapter, run_phases.
  destruct it; intros Hdelta; repeat case_bool_decide; try done;
    set_unfold; naive_solver.
Qed.

Lemma turn_phases_compared turn q :
  Forall has_delta turn →
  q ∈ turn ≫= item_phases_adapter
  ↔ q ∈ turn ≫= item_phases_stream ∧ q ≠ executing ∧ q ≠ function.
Proof.
  intros Hall. rewrite !list_elem_of_bind. split.
  - intros (it & Hq & Hit).
    apply item_phases_compared in Hq as (? & ? & ?);
      [|by eapply Forall_forall]. eauto.
  - intros ((it & Hq & Hit) & ? & ?). exists it. split; [|done].
    apply item_phases_compared; [by eapply Forall_forall|done].
Qed.

(** *** Maps *)

(** Lookups of literal keys in maps built by [insert]. *)
Ltac map_lookups :=
  repeat first
    [ rewrite lookup_insert_eq
    | rewrite lookup_singleton_eq
    | rewrite lookup_insert_ne by done
    | rewrite lookup_singleton_ne by done
    | rewrite lookup_empty ].

(** The phases of a computation that ends in [print]s. *)
Lemma bind_phases {A B} (f : A → M B) (m : M A) (P : Phase → Prop) :
  (∀ q, q ∈ phases_entered m.1 → P q) →
  (∀ x q, q ∈ phases_entered (f x).1 → P q) →
  ∀ q, q ∈ phases_entered (m ≫= f).1 → P q.
Proof.
  intros Hm Hf q. rewrite bind_unfold.
  destruct m as [out [e|x]]; cbn [fst snd]; [apply Hm|].
  rewrite phases_entered_app, elem_of_app. intros [?|?]; [by apply Hm|].
  by eapply Hf.
Qed.

Lemma lift_phases {A} (r : result A) q : q ∈ phases_entered (lift r).1 → False.
Proof. cbn. set_solver. Qed.

Lemma last_identifier_app before event after rid0 rid :
  event_type_is "response.created" event = true →
  created_id event = inr rid →
  Forall (λ e, event_type_is "response.created" e = false) after →
  last_identifier (before ++ event :: after) rid0 = rid.
Proof.
  intros Hev Hid Hafter. unfold last_identifier.
  rewrite foldl_app. cbn [foldl]. rewrite Hev, Hid.
  clear Hev Hid. induction Hafter as [|e after He _ IH]; [done|].
  cbn [foldl]. by rewrite He.
Qed.

Section Properties.
Context `{Runtime}.

(** *** The phase interpreter, one event at a time *)

Lemma delta_branch_dict p st d :
  delta_branch p st (PDict d) =
  ((if bool_decide (current_phase st = Some p) then [] else [beginPhase p])
     ++ [appendText (py_str (delta_of (PDict d)))],
   inr {| response_id := response_id st; current_phase := Some p |}).
Proof. unfold delta_branch. by case_bool_decide. Qed.

Lemma interpret_delta type p st event :
  (type, p) ∈ delta_kinds →
  event_type_is type event = true →
  interpret_event st event =
  ((if bool_decide (current_phase st = Some p) then [] else [beginPhase p])
     ++ [appendText (py_str (delta_of event))],
   inr {| response_id := response_id st; current_phase := Some p |}).
Proof.
  intros Hkind Hev. apply event_type_is_inv in Hev as (d & -> & Hty).
  unfold interpret_event. cbn [py_get]. rewrite Hty, lift_bind.
  unfold delta_kinds in Hkind. set_unfold in Hkind.
  destruct_or!; destruct_and?; simplify_eq; simpl; apply delta_branch_dict.
Qed.

Lemma interpret_events_same_phase type p events st :
  (type, p) ∈ delta_kinds →
  Forall (λ e, event_type_is type e = true) events →
  current_phase st = Some p →
  interpret_events events st =
  ((λ e, appendText (py_str (delta_of e))) <$> events, inr st).
Proof.
  intros Hkind Hall. revert st.
  induction Hall as [|event events Hev _ IH]; intros st Hphase; [done|].
  cbn [interpret_events]. rewrite (interpret_delta type p) by done.
  rewrite bool_decide_true by done. rewrite bind_unfold. cbn [fst snd].
  rewrite IH by done. destruct st; simpl in *. by subst.
Qed.

(** C4.  A run of one or more deltas of one kind, met in another phase,
    enters the phase of that kind once and then appends each delta; this
    holds for each of the four kinds of delta. *)
Theorem repeated_deltas_begin_phase_once type p events st :
  (type, p) ∈ delta_kinds →
  events ≠ [] →
  Forall (λ e, event_type_is type e = true) events →
  current_phase st ≠ Some p →
  interpret_events events st =
  (beginPhase p :: ((λ e, appendText (py_str (delta_of e))) <$> events),
   inr {| response_id := response_id st; current_phase := Some p |}).
Proof.
  intros Hkind Hne Hall Hphase.
  destruct Hall as [|event events Hev Hall]; [done|].
  cbn [interpret_events]. rewrite (interpret_delta type p) by done.
  rewrite bool_decide_false by done. rewrite bind_unfold. cbn [fst snd].
  by rewrite (interpret_events_same_phase type p).
Qed.

(** C5.  An [output_item.added] event whose item is a [function_call]
    announces the tool, whatever the phase, and changes neither the phase
    nor the captured identifier. *)
Theorem function_call_item_announced st event item name :
  event_type_is "response.output_item.added" event = true →
  py_get event "item" (PDict ∅) = inr item →
  py_get item "type" PNone = inr (PStr "function_call") →
  py_get item "name" PNone = inr name →
  interpret_event st event = ([toolAnnounce (py_str name)], inr st).
Proof.
  intros Hev Hitem Hty Hname.
  apply event_type_is_inv in Hev as (d & -> & Hev).
  unfold interpret_event. cbn [py_get] in *. rewrite Hev, lift_bind.
  cbn [py_eq_str]. simpl String.eqb. cbv iota.
  rewrite Hitem, lift_bind, Hty, lift_bind, Hname. done.
Qed.

(** C6, as the program has it.  A [code_interpreter_call.completed] event
    prints its marker and leaves the phase as it was; when that phase is
    [executing], the delta that follows enters its own phase anew. *)
Theorem execution_completed_keeps_phase st completed type p delta :
  event_type_is "response.code_interpreter_call.completed" completed = true →
  (type, p) ∈ delta_kinds →
  event_type_is type delta = true →
  interpret_event st completed = ([execDone], inr st)
  ∧ (current_phase st = Some executing →
     interpret_events [completed; delta] st =
     ([execDone; beginPhase p; appendText (py_str (delta_of delta))],
      inr {| response_id := response_id st; current_phase := Some p |})).
Proof.
  intros Hev Hkind Hdelta.
  assert (interpret_event st completed = ([execDone], inr st)) as Hstep.
  { apply event_type_is_inv in Hev as (d & -> & Hev).
    unfold interpret_event. cbn [py_get]. by rewrite Hev, lift_bind. }
  split; [done|]. intros Hphase.
  cbn [interpret_events]. rewrite Hstep, bind_unfold. cbn [fst snd].
  rewrite (interpret_delta type p) by done.
  rewrite bool_decide_false; [done|].
  rewrite Hphase. intros [= <-]. by eapply delta_phase_not_executing.
Qed.

(** The identifier after an event: the one the event carries when it is a
    [response.created] event, the one before it otherwise. *)
Lemma interpret_event_response_id st event st' :
  (interpret_event st event).2 = inr st' →
  response_id st' =
  if event_type_is "response.created" event
  then match created_id event with
       | inr rid => rid
       | inl _ => response_id st
       end
  else response_id st.
Proof.
  destruct event as [| | | | |l|d]; try done.
  unfold interpret_event, event_type_is. cbn [py_get]. rewrite lift_bind.
  destruct (py_eq_str _ "response.created").
  { destruct (created_id (PDict d)) as [e|rid]; rewrite lift_bind; [done|].
    by intros [= <-]. }
  repeat match goal with
         | |- context [py_eq_str ?v ?lit] => destruct (py_eq_str v lit)
         end;
    rewrite ?delta_branch_dict; try (by intros [= <-]).
  rewrite lift_bind.
  destruct (py_get _ "type" PNone) as [e|item_type]; rewrite lift_bind;
    [done|].
  destruct (py_eq_str item_type "function_call");
    [destruct (py_get _ "name" PNone) as [e|name]; rewrite lift_bind|];
    try done; by intros [= <-].
Qed.

Lemma interpret_events_app events1 events2 st :
  interpret_events (events1 ++ events2) st =
  interpret_events events1 st ≫= interpret_events events2.
Proof.
  revert st. induction events1 as [|event events1 IH]; intros st.
  { cbn [app interpret_events]. by rewrite ret_bind. }
  cbn [app interpret_events]. rewrite !bind_unfold.
  destruct (interpret_event st event) as [out [e|st1]]; cbn [fst snd];
    [done|].
  rewrite IH, bind_unfold.
  destruct (interpret_events events1 st1) as [out1 [e|st2]]; cbn [fst snd];
    [done|].
  by rewrite app_assoc.
Qed.

Lemma interpret_events_no_identifier events st st' :
  Forall (λ e, event_type_is "response.created" e = false) events →
  (interpret_events events st).2 = inr st' →
  response_id st' = response_id st.
Proof.
  intros Hall. revert st.
  induction Hall as [|event events Hev _ IH]; intros st.
  { by intros [= <-]. }
  cbn [interpret_events].
  intros (st1 & Hstep & Hrest & _)%bind_returns.
  apply interpret_event_response_id in Hstep. rewrite Hev in Hstep.
  rewrite (IH st1) by done. done.
Qed.

Lemma interpret_events_deltas events st :
  Forall is_delta events →
  ∃ trace st',
    interpret_events events st = (trace, inr st')
    ∧ appended trace = (λ e, py_str (delta_of e)) <$> events
    ∧ response_id st' = response_id st.
Proof.
  intros Hall. revert st.
  induction Hall as [|event events (type & p & Hkind & Hty) _ IH]; intros st.
  { by exists [], st. }
  destruct (IH {| response_id := response_id st; current_phase := Some p |})
    as (trace & st' & Hrun & Happ & Hid).
  cbn [interpret_events]. rewrite (interpret_delta type p) by done.
  rewrite bind_unfold. cbn [fst snd]. rewrite Hrun. cbn [fst snd].
  eexists _, st'. split; [done|]. split; [|done].
  unfold appended in *. rewrite !omap_app, Happ. by case_bool_decide.
Qed.

(** *** The event decoder *)

Lemma data_frame_decoded line payload rest closing rid :
  data_frame line payload →
  stream_lines (line :: rest) closing rid =
  if String.eqb payload "[DONE]" then gen_return rid
  else
    match json_loads payload with
    | None => stream_lines rest closing rid
    | Some event =>
        match py_get event "type" (PStr "") with
        | inl e => gen_raise e
        | inr event_type =>
            if py_eq_str event_type "response.created" then
              match created_id event with
              | inl e => gen_raise e
              | inr rid' => gen_yield event (stream_lines rest closing rid')
              end
            else gen_yield event (stream_lines rest closing rid)
        end
    end.
Proof.
  intros [Hne Hdec]. cbn [stream_lines].
  rewrite bool_decide_false, Hdec by done.
  assert (String.prefix "data: " ("data: " +:+ payload) = true) as ->.
  { cbv [String.append]. cbn. by destruct payload. }
  done.
Qed.

Lemma stream_lines_delta line event rest closing rid :
  delta_frame line event →
  stream_lines (line :: rest) closing rid =
  gen_yield event (stream_lines rest closing rid).
Proof.
  intros (payload & type & p & Hframe & Hnd & Hjson & Hkind & Hty).
  rewrite (data_frame_decoded line payload) by done.
  apply String.eqb_neq in Hnd as ->. rewrite Hjson.
  apply event_type_is_inv in Hty as (d & -> & Hty). cbn [py_get].
  rewrite Hty. unfold delta_kinds in Hkind. set_unfold in Hkind.
  destruct_or!; destruct_and?; by simplify_eq.
Qed.

Lemma stream_lines_malformed line rest closing rid :
  malformed_frame line →
  stream_lines (line :: rest) closing rid = stream_lines rest closing rid.
Proof.
  intros (payload & Hframe & Hnd & Hjson).
  rewrite (data_frame_decoded line payload) by done.
  apply String.eqb_neq in Hnd as ->. by rewrite Hjson.
Qed.

Lemma stream_lines_done line rest closing rid :
  done_frame line → stream_lines (line :: rest) closing rid = gen_return rid.
Proof. intros Hframe. by rewrite (data_frame_decoded line "[DONE]"). Qed.

Lemma delta_frame_event line event : delta_frame line event → is_delta event.
Proof.
  intros (payload & type & p & _ & _ & _ & Hkind & Hty).
  by exists type, p.
Qed.


(** *** The identifier of a turn *)

Lemma stream_lines_finish lines closing rid0 ret :
  finish (stream_lines lines closing rid0) = inr ret →
  ret = PDict (<["id" := last_identifier
                           (yielded (stream_lines lines closing rid0)) rid0]>
                 {["text" := PStr ""]}).
Proof.
  revert rid0. induction lines as [|line lines IH]; intros rid0;
    cbn [stream_lines].
  { destruct closing; [done|]. by intros [= <-]. }
  destruct (bool_decide (line = [])); [apply IH|].
  destruct (bytes_decode line) as [decoded|]; [|done].
  destruct (negb (String.prefix "data: " decoded)); [apply IH|].
  destruct (String.eqb _ "[DONE]"); [by intros [= <-]|].
  destruct (json_loads _) as [event|]; [|apply IH].
  destruct (py_get event "type" (PStr "")) as [e|event_type] eqn:Hty;
    [done|].
  destruct (py_eq_str event_type "response.created") eqn:Hcreated.
  - destruct (created_id event) as [e|rid] eqn:Hid; [done|].
    cbn [gen_yield finish yielded]. intros ->%IH.
    unfold last_identifier. cbn [foldl]. unfold event_type_is.
    by rewrite Hty, Hcreated, Hid.
  - cbn [gen_yield finish yielded]. intros ->%IH.
    unfold last_identifier. cbn [foldl]. unfold event_type_is.
    by rewrite Hty, Hcreated.
Qed.

Lemma stream_response_finish input_text tools previous_id ret :
  finish (stream_response input_text tools previous_id) = inr ret →
  ret = PDict (<["id" := last_identifier
                           (yielded
                              (stream_response input_text tools previous_id))
                           PNone]>
                 {["text" := PStr ""]}).
Proof.
  unfold stream_response. destruct (requests_post _) as [e|resp]; [done|].
  apply stream_lines_finish.
Qed.

Lemma print_streaming_response_returns input_text tools previous_id r :
  (print_streaming_response input_text tools previous_id).2 = inr r →
  ∃ st ret,
    (interpret_events (yielded (stream_response input_text tools previous_id))
       {| response_id := PNone; current_phase := None |}).2 = inr st
    ∧ finish (stream_response input_text tools previous_id) = inr ret
    ∧ r = response_id st.
Proof.
  unfold print_streaming_response. rewrite print_bind. cbn [snd].
  intros (st & Hrun & Hrest & _)%bind_returns. exists st.
  destruct (finish _) as [e|ret]; rewrite lift_bind in Hrest; [done|].
  exists ret. by injection Hrest as <-.
Qed.

(** C1, as the program has it.  When no [response.created] event is
    yielded, a turn that returns returns [None], and [main] stores it: the
    session id becomes [None] and the next request carries no
    [previous_response_id].  The session id is kept only by a turn that
    raises. *)
Theorem turn_without_identifier_clears_session tools st user_input :
  let active_tools := if use_tools st then tools else [] in
  let turn :=
    print_streaming_response user_input active_tools (previous_id st) in
  let st' := (main_request false tools st user_input).2 in
  Forall (λ e, event_type_is "response.created" e = false)
    (yielded (stream_response user_input active_tools (previous_id st))) →
  match turn.2 with
  | inr rid =>
      rid = PNone ∧ previous_id st' = PNone ∧ use_tools st' = use_tools st
      ∧ ∀ input_text' tools',
          stream_response_payload input_text' tools' (previous_id st')
            !! "previous_response_id" = None
  | inl _ => st' = st
  end.
Proof.
  intros active_tools turn st' Hnone. subst st'. unfold main_request.
  fold active_tools. cbv iota. fold turn. rewrite print_bind. cbn [fst snd].
  destruct (turn.2) as [e|rid] eqn:Hturn; [done|]. cbn [snd previous_id use_tools].
  apply print_streaming_response_returns in Hturn as (st1 & _ & Hrun & _ & ->).
  apply interpret_events_no_identifier in Hrun as ->; done.
Qed.

(** C3, as the program has it.  The identifier a turn returns is the one
    carried by the last [response.created] event yielded: each such event
    replaces what was captured before.  The decoder captures the same one
    for the value it returns. *)
Theorem last_identifier_returned
    input_text tools previous_id before event after rid r :
  yielded (stream_response input_text tools previous_id)
    = before ++ event :: after →
  event_type_is "response.created" event = true →
  created_id event = inr rid →
  Forall (λ e, event_type_is "response.created" e = false) after →
  (print_streaming_response input_text tools previous_id).2 = inr r →
  r = rid
  ∧ finish (stream_response input_text tools previous_id)
    = inr (PDict (<["id" := rid]> {["text" := PStr ""]})).
Proof.
  intros Hyield Hev Hid Hafter.
  intros (st & ret & Hrun & Hfinish & ->)%print_streaming_response_returns.
  split.
  - rewrite Hyield, interpret_events_app in Hrun.
    apply bind_returns in Hrun as (st1 & _ & Hrun & _).
    cbn [interpret_events] in Hrun.
    apply bind_returns in Hrun as (st2 & Hstep & Hrun & _).
    apply interpret_event_response_id in Hstep. rewrite Hev, Hid in Hstep.
    apply interpret_events_no_identifier in Hrun; congruence.
  - rewrite Hfinish. apply stream_response_finish in Hfinish as ->.
    by rewrite Hyield, (last_identifier_app before event after PNone rid).
Qed.

(** *** The adapter, one item at a time *)

Lemma print_reasoning_item item first more t :
  py_get item "type" PNone = inr (PStr "reasoning") →
  py_get item "content" (PList []) = inr (PList (first :: more)) →
  py_get first "text" (PStr "") = inr (PStr t) →
  print_item item =
  ([beginPhase reasoning;
    appendText (str_take 200 t +:+
                (if 200 <? String.length t then "..." else ""))],
   inr ()).
Proof.
  intros Hty Hcontent Htext. unfold print_item.
  rewrite Hty, lift_bind. cbn [py_eq_str]. simpl String.eqb. cbv iota.
  rewrite Hcontent, lift_bind. cbn [py_truthy negb bool_decide].
  rewrite bool_decide_false by done. cbn [negb py_index0].
  rewrite lift_bind, Htext, lift_bind. cbn [py_slice_to py_len].
  rewrite !lift_bind, py_str_PStr. done.
Qed.


(** C10.  A reasoning item whose content is the empty list, or is
    missing, prints nothing: neither the header nor a preview. *)
Theorem empty_reasoning_content_prints_nothing item :
  py_get item "type" PNone = inr (PStr "reasoning") →
  py_get item "content" (PList []) = inr (PList []) →
  print_item item = ([], inr ()).
Proof.
  intros Hty Hcontent. unfold print_item.
  rewrite Hty, lift_bind. cbn [py_eq_str]. simpl String.eqb. cbv iota.
  by rewrite Hcontent, lift_bind.
Qed.

(** *** Phases only one form can show *)

Lemma for_each_phases {A} (body : A → M unit) (P : Phase → Prop) xs :
  (∀ x q, q ∈ phases_entered (body x).1 → P q) →
  ∀ q, q ∈ phases_entered (for_each body xs).1 → P q.
Proof.
  intros Hbody. induction xs as [|x xs IH]; cbn [for_each].
  { cbn. set_solver. }
  apply bind_phases; [apply Hbody|]. intros _. apply IH.
Qed.

Ltac phases_step :=
  first
    [ apply bind_phases; [|intros ?]
    | match goal with
      | |- ∀ q, q ∈ phases_entered (lift _).1 → _ =>
          intros ? []%lift_phases
      | |- ∀ q, q ∈ phases_entered (if ?b then _ else _).1 → _ =>
          destruct b
      | |- ∀ q, q ∈ phases_entered (print _).1 → _ =>
          unfold adapter_phase; cbn; set_solver
      | |- ∀ q, q ∈ phases_entered (mret _).1 → _ =>
          cbn; set_solver
      end ].

Lemma print_message_block_phases c q :
  q ∈ phases_entered (print_message_block c).1 → adapter_phase q.
Proof. revert q. unfold print_message_block. repeat phases_step. Qed.

Lemma print_item_phases item q :
  q ∈ phases_entered (print_item item).1 → adapter_phase q.
Proof.
  revert q. unfold print_item. repeat phases_step.
  apply for_each_phases, print_message_block_phases.
Qed.

Lemma print_non_streaming_response_phases response q :
  q ∈ phases_entered (print_non_streaming_response response).1 →
  adapter_phase q.
Proof.
  revert q. unfold print_non_streaming_response. repeat phases_step.
  apply for_each_phases, print_item_phases.
Qed.

Lemma interpret_execution_started st event :
  event_type_is "response.code_interpreter_call.interpreting" event = true →
  interpret_event st event =
  ([beginPhase executing],
   inr {| response_id := response_id st; current_phase := Some executing |}).
Proof.
  intros (d & -> & Hty)%event_type_is_inv.
  unfold interpret_event. cbn [py_get]. by rewrite Hty, lift_bind.
Qed.

Lemma execution_entered events st trace st' :
  interpret_events events st = (trace, inr st') →
  Exists
    (λ e, event_type_is "response.code_interpreter_call.interpreting" e = true)
    events →
  executing ∈ phases_entered trace.
Proof.
  intros Hrun Hex. revert st trace Hrun.
  induction Hex as [event events Hev|event events _ IH]; intros st trace;
    cbn [interpret_events];
    intros (st1 & out1 & out2 & Hstep & Hrest & ->)%bind_eq_returns;
    rewrite phases_entered_app, elem_of_app.
  - left. rewrite interpret_execution_started in Hstep by done.
    injection Hstep as <- _. cbn. set_solver.
  - right. by eapply IH.
Qed.

(** *** The two forms of a turn *)

Lemma interpret_delta_run type p deltas st :
  (type, p) ∈ delta_kinds →
  interpret_events (delta_event type <$> deltas) st =
  (run_trace (current_phase st) p deltas,
   inr {| response_id := response_id st;
          current_phase := run_phase (current_phase st) p deltas |}).
Proof.
  intros Hkind. unfold run_trace, run_phase.
  destruct deltas as [|d deltas]; [by destruct st|].
  rewrite bool_decide_false by done.
  cbn [fmap list_fmap interpret_events].
  rewrite (interpret_delta type p), bind_unfold
    by auto using event_type_is_delta_event.
  cbn [fst snd].
  rewrite (interpret_events_same_phase type p); [|done| |done].
  - cbn [fst snd]. rewrite delta_of_delta_event, py_str_PStr, <-app_assoc.
    do 3 f_equal. rewrite <-list_fmap_compose. apply list_fmap_ext.
    intros _ d' _. unfold compose. by rewrite delta_of_delta_event, py_str_PStr.
  - apply Forall_fmap, Forall_true. intros d'. apply event_type_is_delta_event.
Qed.

Lemma interpret_execution st :
  interpret_events
    [plain_event "response.code_interpreter_call.interpreting";
     plain_event "response.code_interpreter_call.completed"] st =
  ([beginPhase executing; execDone],
   inr {| response_id := response_id st; current_phase := Some executing |}).
Proof.
  cbn [interpret_events]. unfold interpret_event, plain_event. cbn [py_get].
  by rewrite !lookup_singleton_eq.
Qed.

Lemma interpret_function_call_added st name :
  interpret_event st
    (item_added_event
       (PDict (<["type" := PStr "function_call"]> {["name" := PStr name]})))
  = ([toolAnnounce name], inr st).
Proof.
  unfold interpret_event, item_added_event. cbn [py_get].
  rewrite lookup_insert_eq, lift_bind. cbn [default from_option id py_eq_str].
  simpl String.eqb. cbv iota.
  rewrite lookup_insert_ne, lookup_singleton_eq by done.
  rewrite lift_bind. cbn [default from_option id py_get].
  rewrite lookup_insert_eq, lift_bind. cbn [default from_option id py_eq_str].
  simpl String.eqb. cbv iota.
  rewrite lookup_insert_ne, lookup_singleton_eq by done.
  rewrite lift_bind. cbn [default from_option id]. by rewrite py_str_PStr.
Qed.

Lemma interpret_item_events it st :
  ∃ trace st',
    interpret_events (item_events it) st = (trace, inr st')
    ∧ response_id st' = response_id st
    ∧ current_phase st' = trace_phase (current_phase st) trace
    ∧ phase_text text (current_phase st) trace = item_answer it
    ∧ ∀ q, current_phase st = Some q ∨ q ∈ phases_entered trace
           ↔ current_phase st = Some q ∨ q ∈ item_phases_stream it.
Proof.
  destruct it as [deltas|deltas|name deltas|deltas]; cbn [item_events].
  - rewrite (interpret_delta_run _ reasoning) by set_solver.
    eexists _, _. split; [done|]. cbn [response_id current_phase].
    rewrite run_trace_phase, run_trace_text.
    auto using run_trace_entered.
  - rewrite interpret_events_app, (interpret_delta_run _ code) by set_solver.
    rewrite bind_unfold. cbn [fst snd]. rewrite interpret_execution.
    eexists _, _. split; [done|]. cbn [fst snd response_id current_phase].
    rewrite trace_phase_app, phase_text_app, run_trace_text.
    repeat split; try done.
    + intros Hq. rewrite phases_entered_app in Hq.
      cbn [item_phases_stream].
      destruct (run_trace_entered q (current_phase st) code deltas) as [Hrun _].
      set_solver.
    + intros Hq. rewrite phases_entered_app. cbn [item_phases_stream] in Hq.
      destruct (run_trace_entered q (current_phase st) code deltas) as [_ Hrun].
      set_solver.
  - cbn [interpret_events].
    rewrite interpret_function_call_added, bind_unfold. cbn [fst snd].
    rewrite (interpret_delta_run _ function) by set_solver.
    eexists _, _. split; [done|]. cbn [fst snd response_id current_phase].
    cbn [app trace_phase phase_text].
    rewrite run_trace_phase, run_trace_text.
    repeat split; try done; apply run_trace_entered.
  - rewrite (interpret_delta_run _ text) by set_solver.
    eexists _, _. split; [done|]. cbn [response_id current_phase].
    rewrite run_trace_phase, run_trace_text.
    auto using run_trace_entered.
Qed.

Lemma interpret_turn_events turn st :
  ∃ trace st',
    interpret_events (turn ≫= item_events) st = (trace, inr st')
    ∧ response_id st' = response_id st
    ∧ current_phase st' = trace_phase (current_phase st) trace
    ∧ phase_text text (current_phase st) trace = turn_answer turn
    ∧ ∀ q, current_phase st = Some q ∨ q ∈ phases_entered trace
           ↔ current_phase st = Some q ∨ q ∈ turn ≫= item_phases_stream.
Proof.
  revert st. induction turn as [|it turn IH]; intros st.
  { exists [], st. repeat split; try done; set_solver. }
  destruct (interpret_item_events it st)
    as (t1 & st1 & Hrun1 & Hid1 & Hph1 & Htext1 & Hin1).
  destruct (IH st1) as (t2 & st2 & Hrun2 & Hid2 & Hph2 & Htext2 & Hin2).
  exists (t1 ++ t2), st2.
  rewrite bind_cons, interpret_events_app, Hrun1, bind_unfold. cbn [fst snd].
  rewrite Hrun2. cbn [fst snd].
  rewrite trace_phase_app, phase_text_app, <-Hph1, Htext1, Htext2.
  repeat split; try congruence.
  - intros Hq. rewrite phases_entered_app in Hq.
    rewrite bind_cons.
    assert (current_phase st1 = Some q →
            current_phase st = Some q ∨ q ∈ phases_entered t1) as Hcur.
    { rewrite Hph1. apply trace_phase_entered. }
    destruct (Hin1 q) as [Hin1' _]. destruct (Hin2 q) as [Hin2' _].
    set_solver.
  - intros Hq. rewrite phases_entered_app. rewrite bind_cons in Hq.
    assert (current_phase st1 = Some q →
            current_phase st = Some q ∨ q ∈ phases_entered t1) as Hcur.
    { rewrite Hph1. apply trace_phase_entered. }
    destruct (Hin1 q) as [_ Hin1']. destruct (Hin2 q) as [_ Hin2'].
    set_solver.
Qed.

Lemma print_item_object it :
  print_item (item_object it) = (item_adapter_trace it, inr ()).
Proof.
  destruct it as [deltas|deltas|name deltas|deltas];
    unfold print_item, item_object; cbn [py_get]; map_lookups;
    rewrite lift_bind; cbn [default from_option id py_eq_str];
    simpl String.eqb; cbv iota; rewrite !lift_bind.
  - cbn [default from_option id py_truthy]. rewrite bool_decide_false by done.
    cbn [negb py_index0]. rewrite lift_bind. cbn [py_get]. map_lookups.
    rewrite lift_bind. cbn [default from_option id py_slice_to py_len].
    by rewrite !lift_bind, py_str_PStr.
  - cbn [default from_option id py_truthy]. rewrite bool_decide_true by done.
    by rewrite py_str_PStr.
  - cbn [default from_option id]. by rewrite !py_str_PStr.
  - cbn [default from_option id py_iter].
    cbn [for_each]. unfold print_message_block. cbn [py_get]. map_lookups.
    rewrite lift_bind. cbn [default from_option id py_eq_str].
    simpl String.eqb. cbv iota. rewrite lift_bind.
    cbn [default from_option id]. by rewrite py_str_PStr.
Qed.

Lemma print_item_objects turn :
  for_each print_item (item_object <$> turn)
  = (turn ≫= item_adapter_trace, inr ()).
Proof.
  induction turn as [|it turn IH]; [done|].
  cbn [fmap list_fmap for_each]. rewrite print_item_object, bind_unfold.
  cbn [fst snd]. fold (item_object <$> turn). by rewrite IH, bind_cons.
Qed.

Lemma print_turn_response ident turn :
  print_non_streaming_response (turn_response ident turn)
  = ((turn ≫= item_adapter_trace) ++ [blankLine], inr (PStr ident)).
Proof.
  unfold print_non_streaming_response, turn_response. cbn [py_get].
  map_lookups. rewrite !lift_bind.
  cbn [default from_option id py_iter].
  rewrite print_item_objects, bind_unfold. cbn [fst snd].
  cbn [py_get]. map_lookups. cbn [default from_option id].
  rewrite lift_bind. cbn [py_get]. map_lookups. done.
Qed.

Lemma interpret_created st ident :
  interpret_event st (created_event ident)
  = ([], inr {| response_id := PStr ident; current_phase := current_phase st |}).
Proof.
  unfold interpret_event, created_event, created_id. cbn [py_get].
  map_lookups. rewrite lift_bind. cbn [default from_option id py_eq_str].
  simpl String.eqb. cbv iota. cbn [py_get]. by map_lookups.
Qed.


(** C9.  In both request builders the payload has the key
    [previous_response_id] exactly when the continuation id is truthy,
    and then maps it to that id; [None] and the empty string are not,
    every other string is. *)
Theorem previous_response_id_included_iff_truthy :
  (∀ input_text tools previous_id,
      stream_response_payload input_text tools previous_id
        !! "previous_response_id"
      = (if py_truthy previous_id then Some previous_id else None)
    ∧ non_stream_response_payload input_text tools previous_id
        !! "previous_response_id"
      = (if py_truthy previous_id then Some previous_id else None))
  ∧ py_truthy PNone = false
  ∧ py_truthy (PStr "") = false
  ∧ (∀ s, py_truthy (PStr s) = true ↔ s ≠ "").
Proof.
  split; [|split; [done|split; [done|]]].
  - intros input_text tools previous_id.
    unfold stream_response_payload, non_stream_response_payload.
    destruct (py_truthy previous_id); split; by map_lookups.
  - intros s. cbn [py_truthy]. rewrite negb_true_iff.
    split; [by intros Hne%String.eqb_neq|by intros Hne%String.eqb_neq].
Qed.
End Properties.

(** ** The properties at concrete inputs *)

(** C1 fails as stated: the stream has no [response.created] event, the
    turn returns [None], and the session id ["resp_A"] is replaced by it. *)
Lemma session_id_overwritten_with_none :
  Forall (λ e, event_type_is "response.created" e = false)
    (yielded (stream_response (H := no_id_runtime) "hi" [] (PStr "resp_A")))
  ∧ (print_streaming_response (H := no_id_runtime) "hi" [] (PStr "resp_A")).2
    = inr PNone
  ∧ previous_id (main_request (H := no_id_runtime) false [] session_A "hi").2
    ≠ previous_id session_A.
Proof.
  split; [|split].
  - by repeat constructor.
  - by vm_compute.
  - by vm_compute.
Qed.

Lemma turn_without_identifier_clears_session_witness :
  previous_id (main_request (H := no_id_runtime) false [] session_A "hi").2
  = PNone.
Proof.
  pose proof (turn_without_identifier_clears_session
                (H := no_id_runtime) [] session_A "hi") as W.
  vm_compute. vm_compute in W. apply W. by repeat constructor.
Defined.

(** C3 fails as stated: two identifiers are yielded, ["resp_A"] first,
    and the turn does not return the first. *)
Lemma first_identifier_not_returned :
  yielded (stream_response (H := two_ids_runtime) "hi" [] PNone)
    = [created_event "resp_A"; created_event "resp_B"]
  ∧ (print_streaming_response (H := two_ids_runtime) "hi" [] PNone).2
    ≠ inr (PStr "resp_A").
Proof. split; by vm_compute. Qed.

Lemma last_identifier_returned_witness :
  (print_streaming_response (H := two_ids_runtime) "hi" [] PNone).2
  = inr (PStr "resp_B").
Proof.
  destruct (print_streaming_response (H := two_ids_runtime) "hi" [] PNone).2
    as [e|r] eqn:Hret.
  - by vm_compute in Hret.
  - f_equal.
    apply (last_identifier_returned (H := two_ids_runtime) "hi" [] PNone
             [created_event "resp_A"] (created_event "resp_B") []);
      [by vm_compute | by vm_compute | by vm_compute | constructor | done].
Defined.

Lemma repeated_deltas_begin_phase_once_witness :
  interpret_events (H := idle_runtime) [think_event; think_event; think_event]
    {| response_id := PNone; current_phase := Some text |}
  = ([beginPhase reasoning;
      appendText "hmm"; appendText "hmm"; appendText "hmm"],
     inr {| response_id := PNone; current_phase := Some reasoning |}).
Proof.
  apply (repeated_deltas_begin_phase_once (H := idle_runtime)
           "response.reasoning_text.delta" reasoning
           [think_event; think_event; think_event]
           {| response_id := PNone; current_phase := Some text |}).
  - apply list_elem_of_here.
  - discriminate.
  - repeat constructor.
  - discriminate.
Defined.

Lemma function_call_item_announced_witness :
  interpret_event (H := idle_runtime)
    {| response_id := PStr "resp_A"; current_phase := Some text |} tool_event
  = ([toolAnnounce "get_weather"],
     inr {| response_id := PStr "resp_A"; current_phase := Some text |}).
Proof.
  apply (function_call_item_announced (H := idle_runtime) _ tool_event
           (PDict (<["type" := PStr "function_call"]>
                     {["name" := PStr "get_weather"]}))
           (PStr "get_weather")); by vm_compute.
Defined.

(** C6 fails as stated: after the event the phase is still [code], and
    the code delta that follows enters no phase. *)
Lemma phase_not_none_after_completed :
  ∃ st,
    interpret_event (H := idle_runtime)
      {| response_id := PNone; current_phase := Some code |} completed_event
    = ([execDone], inr st)
    ∧ current_phase st ≠ None
    ∧ phases_entered (interpret_event (H := idle_runtime) st code_event).1
      = [].
Proof.
  exists {| response_id := PNone; current_phase := Some code |}.
  split; [|split]; by vm_compute.
Qed.

Lemma execution_completed_keeps_phase_witness :
  interpret_events (H := idle_runtime) [completed_event; code_event]
    {| response_id := PNone; current_phase := Some executing |}
  = ([execDone; beginPhase code; appendText "1+1"],
     inr {| response_id := PNone; current_phase := Some code |}).
Proof.
  apply (execution_completed_keeps_phase (H := idle_runtime)
           {| response_id := PNone; current_phase := Some executing |}
           completed_event
           "response.code_interpreter_call_code.delta" code code_event).
  - by vm_compute.
  - apply list_elem_of_further, list_elem_of_here.
  - by vm_compute.
  - done.
Defined.



Lemma empty_reasoning_content_prints_nothing_witness :
  print_item (H := idle_runtime) (reasoning_item []) = ([], inr ()).
Proof.
  apply (empty_reasoning_content_prints_nothing (H := idle_runtime));
    by vm_compute.
Defined.


